(** * cudacpp::Vector4 — a shallow embedding of include/cudacpp/Vector4.h

    The class template [Vector4<T>] holds four public members [x], [y], [z],
    [w] of the element type [T].  The embedding follows the header member by
    member: one function per constructor, per assignment operator, per
    [operator[]] overload, and [toString] with its [formatString]
    specialisations on top of a small model of [sprintf]. *)

From Stdlib Require Import ZArith String Ascii Decimal DecimalString.
From Stdlib Require Import DecimalPos DecimalN DecimalZ.
From Stdlib Require Import DecimalFacts.
From Stdlib Require Import Floats.SpecFloat.
From stdpp Require Import base option gmap.

Local Open Scope Z_scope.

(** ** Element-type interface *)

(** The value of [static_cast<T>(0)], which is also what the member
    initialiser [z(0)] stores: the zero of the element type. *)
Class CastZero (T : Type) := cast_zero : T.

#[export] Instance CastZero_Z : CastZero Z := 0.
#[export] Instance CastZero_spec_float : CastZero spec_float := S754_zero false.

(** ** Builtin element types

    The arithmetic types a [Vector4] is commonly instantiated with, under
    the LP64 data model of the hosts the library targets: [int] has 32 bits
    and [long] has 64.  Integer values are mathematical integers inside the
    range of their type; floating-point values are IEEE 754 binary32 and
    binary64 numbers. *)

Inductive ctype :=
| TSChar | TUChar | TShort | TUShort
| TInt | TUInt | TLong | TULong
| TFloat | TDouble.

Definition val (t : ctype) : Type :=
  match t with
  | TFloat | TDouble => spec_float
  | _ => Z
  end.

Definition is_signed_integral (t : ctype) : bool :=
  match t with
  | TSChar | TShort | TInt | TLong => true
  | _ => false
  end.

Definition is_unsigned_integral (t : ctype) : bool :=
  match t with
  | TUChar | TUShort | TUInt | TULong => true
  | _ => false
  end.

Definition is_floating (t : ctype) : bool :=
  match t with
  | TFloat | TDouble => true
  | _ => false
  end.

Definition int_bits (t : ctype) : Z :=
  match t with
  | TSChar | TUChar => 8
  | TShort | TUShort => 16
  | TInt | TUInt => 32
  | TLong | TULong => 64
  | TFloat => 32
  | TDouble => 64
  end.

(** The range of an integer type. *)
Definition in_range (t : ctype) (n : Z) : bool :=
  if is_unsigned_integral t
  then (0 <=? n) && (n <? 2 ^ int_bits t)
  else (- 2 ^ (int_bits t - 1) <=? n) && (n <? 2 ^ (int_bits t - 1)).

(** The values a type can hold. *)
Definition representable (t : ctype) : val t → bool :=
  match t with
  | TFloat => valid_binary 24 128
  | TDouble => valid_binary 53 1024
  | TSChar => in_range TSChar
  | TUChar => in_range TUChar
  | TShort => in_range TShort
  | TUShort => in_range TUShort
  | TInt => in_range TInt
  | TUInt => in_range TUInt
  | TLong => in_range TLong
  | TULong => in_range TULong
  end.

(** The floating-point promotion [float] to [double]: every binary32 number
    is a binary64 number, re-encoded with a 53-bit mantissa. *)
Definition float_to_double (f : spec_float) : spec_float :=
  match f with
  | S754_finite s m e => binary_round 53 1024 s m e
  | _ => f
  end.

(** Floating-point literals: the binary32, respectively binary64, number
    nearest to [n * 2^e].  [1.5f] is [float_literal 3 (-1)]. *)
Definition float_literal (n e : Z) : spec_float :=
  binary_normalize 24 128 n e false.

Definition double_literal (n e : Z) : spec_float :=
  binary_normalize 53 1024 n e false.

(** Two finite data denote the same number: scaled to their smaller
    exponent, the signed mantissas agree. *)
Definition same_number (f g : spec_float) : Prop :=
  match f, g with
  | S754_zero _, S754_zero _ => True
  | S754_finite s1 m1 e1, S754_finite s2 m2 e2 =>
      let e := Z.min e1 e2 in
      cond_Zopp s1 (Zpos m1) * 2 ^ (e1 - e) = cond_Zopp s2 (Zpos m2) * 2 ^ (e2 - e)
  | _, _ => False
  end.

(** [INT_MIN] and [FLT_MAX]. *)
Definition INT_MIN : Z := - 2 ^ 31.
Definition FLT_MAX : spec_float := SFmax_float 24 128.

(** ** A model of [sprintf] from <cstdio>

    Only what [toString] can reach: literal characters and the conversion
    specifications [%d], [%u], [%f] and [%lf] (and [%%]). *)

(** A variadic argument after the default argument promotions. *)
Inductive vararg :=
| VInt (n : Z)
| VUInt (n : Z)
| VLong (n : Z)
| VULong (n : Z)
| VDouble (f : spec_float).

(** Default argument promotions: the small integer types travel as [int]
    and [float] travels as [double]. *)
Definition promote (t : ctype) : val t → vararg :=
  match t with
  | TSChar | TUChar | TShort | TUShort | TInt => fun n : Z => VInt n
  | TUInt => fun n : Z => VUInt n
  | TLong => fun n : Z => VLong n
  | TULong => fun n : Z => VULong n
  | TFloat => fun f : spec_float => VDouble (float_to_double f)
  | TDouble => fun f : spec_float => VDouble f
  end.

(** [%d]: signed decimal. *)
Definition render_d (n : Z) : string :=
  NilZero.string_of_int (Z.to_int n).

(** [%u]: unsigned decimal. *)
Definition render_u (n : Z) : string :=
  NilZero.string_of_uint (N.to_uint (Z.to_N n)).

(** Rounding of the fraction [num / den] to the nearest integer, ties to
    even, for [0 <= num] and [0 < den]. *)
Definition round_half_even (num den : Z) : Z :=
  let q := num / den in
  let r := num mod den in
  match 2 * r ?= den with
  | Lt => q
  | Eq => if Z.even q then q else q + 1
  | Gt => q + 1
  end.

(** The magnitude [m * 2^e] in millionths, rounded to nearest. *)
Definition millionths (m : positive) (e : Z) : Z :=
  if 0 <=? e then Zpos m * 2 ^ e * 1000000
  else round_half_even (Zpos m * 1000000) (2 ^ (- e)).

(** Six decimal digits, zero padded on the left. *)
Definition pad6 (k : Z) : string :=
  match render_u (1000000 + k) with
  | String _ s => s
  | EmptyString => EmptyString
  end.

Definition render_fixed6 (s : bool) (n : Z) : string :=
  ((if s then "-" else "") ++ render_u (n / 1000000) ++ "." ++ pad6 (n mod 1000000))%string.

(** [%f] and [%lf]: fixed notation with the default precision of six
    digits after the decimal point. *)
Definition render_f (f : spec_float) : string :=
  match f with
  | S754_zero s => render_fixed6 s 0
  | S754_infinity s => if s then "-inf"%string else "inf"%string
  | S754_nan => "nan"%string
  | S754_finite s m e => render_fixed6 s (millionths m e)
  end.

(** The text [sprintf] produces for a format and its arguments.  A
    conversion specification whose argument is missing or has another type
    than the specification expects has no defined behaviour: [None]. *)
Fixpoint sprintf_text (format : string) (args : list vararg) : option string :=
  match format with
  | EmptyString => Some EmptyString
  | String "%" (String "d" rest) =>
      match args with
      | VInt n :: args' => append (render_d n) <$> sprintf_text rest args'
      | _ => None
      end
  | String "%" (String "u" rest) =>
      match args with
      | VUInt n :: args' => append (render_u n) <$> sprintf_text rest args'
      | _ => None
      end
  | String "%" (String "f" rest)
  | String "%" (String "l" (String "f" rest)) =>
      match args with
      | VDouble f :: args' => append (render_f f) <$> sprintf_text rest args'
      | _ => None
      end
  | String "%" (String "%" rest) => String "%" <$> sprintf_text rest args
  | String "%" _ => None
  | String c rest => String c <$> sprintf_text rest args
  end.

(** [sprintf(buf, format, ...)] into a buffer of [size] bytes: the text and
    its terminating NUL are written without any check, so a text that does
    not fit runs past the end of the buffer and the call has no defined
    result. *)
Definition sprintf (size : nat) (format : string) (args : list vararg)
  : option string :=
  out ← sprintf_text format args;
  if decide (String.length out + 1 ≤ size)%nat then Some out else None.

(** The shape of the text [toString] aims at, for four rendered members. *)
Definition Vector4_text (a b c d : string) : string :=
  ("Vector4(" ++ a ++ "," ++ b ++ "," ++ c ++ "," ++ d ++ ")")%string.

(** ** The lower-dimensional collaborators *)

Module Vector2.
(** Modelled from the spec: [Vector2<T>] is declared in a header that is
  not part of the sources at hand; the spec describes it as the
  two-component counterpart exposing two public fields named like the
  first two of [Vector4]. *)
Record t (T : Type) := mk { x : T; y : T }.
Arguments mk {T} _ _.
Arguments x {T} _.
Arguments y {T} _.
End Vector2.

Module Vector3.
(** Modelled from the spec: [Vector3<T>] comes from [cudacpp/Vector3.h],
  which is not part of the sources at hand; the spec describes it as the
  three-component counterpart exposing three public fields named like the
  first three of [Vector4]. *)
Record t (T : Type) := mk { x : T; y : T; z : T }.
Arguments mk {T} _ _ _.
Arguments x {T} _.
Arguments y {T} _.
Arguments z {T} _.
End Vector3.

(** ** The class itself *)

Module Vector4.

Record t (T : Type) := mk { x : T; y : T; z : T; w : T }.
Arguments mk {T} _ _ _ _.
Arguments x {T} _.
Arguments y {T} _.
Arguments z {T} _.
Arguments w {T} _.

(** The four data members as designators: what a [T &] into a [Vector4<T>]
  can refer to. *)
Inductive member := Mx | My | Mz | Mw.

Section Members.
Context {T : Type}.

Definition load (this : t T) (m : member) : T :=
  match m with
  | Mx => x this
  | My => y this
  | Mz => z this
  | Mw => w this
  end.

Definition store (this : t T) (m : member) (a : T) : t T :=
  match m with
  | Mx => mk a (y this) (z this) (w this)
  | My => mk (x this) a (z this) (w this)
  | Mz => mk (x this) (y this) a (w this)
  | Mw => mk (x this) (y this) (z this) a
  end.

(** *** Constructors *)

(** [Vector4() { }]: no member is initialised, so the members are whatever
    the storage of the object held before. *)
Definition ctor_default (storage : t T) : t T := storage.

(** [Vector4(const T & tx, const T & ty, const T & tz, const T & tw)
      : x(tx), y(ty), z(ty), w(tw) { }] *)
Definition ctor (tx ty tz tw : T) : t T :=
  {| x := tx; y := ty; z := ty; w := tw |}.

(** [Vector4(const Vector2<T> & rhs) : x(rhs.x), y(rhs.y), z(0), w(0) { }] *)
Definition ctor_Vector2 `{!CastZero T} (rhs : Vector2.t T) : t T :=
  {| x := Vector2.x rhs; y := Vector2.y rhs;
     z := cast_zero; w := cast_zero |}.

(** [Vector4(const Vector3<T> & rhs)
      : x(rhs.x), y(rhs.y), z(rhs.z), w(0) { }] *)
Definition ctor_Vector3 `{!CastZero T} (rhs : Vector3.t T) : t T :=
  {| x := Vector3.x rhs; y := Vector3.y rhs;
     z := Vector3.z rhs; w := cast_zero |}.

(** *** Assignment operators, as transformers of the receiver.

    Each body is a sequence of member writes on [*this]; the value
    computed here is the receiver after the last write. *)

(** [x = rhs.x; y = rhs.y; z = w = static_cast<T>(0);]
    The chained assignment is right associative: [w] is written first
    and [z] receives the value then held by [w]. *)
Definition assign_Vector2 `{!CastZero T}
    (this : t T) (rhs : Vector2.t T) : t T :=
  let this := store this Mx (Vector2.x rhs) in
  let this := store this My (Vector2.y rhs) in
  let this := store this Mw cast_zero in
  let this := store this Mz (load this Mw) in
  this.

(** [x = rhs.x; y = rhs.y; z = rhs.z; w = static_cast<T>(0);] *)
Definition assign_Vector3 `{!CastZero T}
    (this : t T) (rhs : Vector3.t T) : t T :=
  let this := store this Mx (Vector3.x rhs) in
  let this := store this My (Vector3.y rhs) in
  let this := store this Mz (Vector3.z rhs) in
  let this := store this Mw cast_zero in
  this.

(** *** Indexed access: [return *(&x + index);]

    Addresses inside the object are counted in units of [sizeof(T)]
    from the address of the object.  The four members have the same
    type and are declared one after the other, so they sit at
    consecutive offsets. *)
Definition offset_of (m : member) : Z :=
  match m with
  | Mx => 0
  | My => 1
  | Mz => 2
  | Mw => 3
  end.

(** The member stored at an offset, if the offset is inside the object.
    Any other address lies outside the object and designates nothing
    the class defines. *)
Definition member_at (off : Z) : option member :=
  if off =? offset_of Mx then Some Mx
  else if off =? offset_of My then Some My
  else if off =? offset_of Mz then Some Mz
  else if off =? offset_of Mw then Some Mw
  else None.

(** [operator [] (const int index)]: the reference [*(&x + index)].
    Both overloads have this body; the const one only allows reads
    through the reference it returns. *)
Definition index (i : Z) : option member :=
  member_at (offset_of Mx + i).

(** [v[i]] used as a value. *)
Definition index_read (this : t T) (i : Z) : option T :=
  load this <$> index i.

(** [v[i] = a]. *)
Definition index_write (this : t T) (i : Z) (a : T) : option (t T) :=
  (fun m => store this m a) <$> index i.

End Members.

Section Converting.
Context {T2 T : Type}.
(** The implicit conversion from [T2] to [T] that the member
    initialisers [x(rhs.x)] and the assignments [x = rhs.x] rely on;
    the identity when [T2] is [T]. *)
Variable conv : T2 → T.

(** [template <typename T2> Vector4(const Vector4<T2> & rhs)
      : x(rhs.x), y(rhs.y), z(rhs.z), w(rhs.w) { }] *)
Definition ctor_Vector4 (rhs : t T2) : t T :=
  {| x := conv (x rhs); y := conv (y rhs);
     z := conv (z rhs); w := conv (w rhs) |}.

(** [x = rhs.x; y = rhs.y; z = rhs.z; w = rhs.w;] *)
Definition assign_Vector4 (this : t T) (rhs : t T2) : t T :=
  let this := store this Mx (conv (x rhs)) in
  let this := store this My (conv (y rhs)) in
  let this := store this Mz (conv (z rhs)) in
  let this := store this Mw (conv (w rhs)) in
  this.
End Converting.

(** *** Assignment operators on objects in memory

    An assignment operator is called on an object and returns [*this] by
    reference.  Objects live in a store indexed by their address; the
    reference returned is the address of the receiver.  The right-hand side
    is read through a const reference: it is either an object of another
    class or of another element type, which the writes to the receiver
    cannot touch, or (for [T2 = T]) possibly the receiver itself, where
    every write [m = rhs.m] rewrites a member with its own value.  In both
    cases the right-hand side is its value when the call begins. *)

Section References.
Context {T : Type}.

Definition op_assign_Vector2 `{!CastZero T}
    (h : gmap positive (t T)) (this : positive) (rhs : Vector2.t T)
  : option (gmap positive (t T) * positive) :=
  o ← h !! this;
  Some (<[this := assign_Vector2 o rhs]> h, this).

Definition op_assign_Vector3 `{!CastZero T}
    (h : gmap positive (t T)) (this : positive) (rhs : Vector3.t T)
  : option (gmap positive (t T) * positive) :=
  o ← h !! this;
  Some (<[this := assign_Vector3 o rhs]> h, this).

Definition op_assign_Vector4 {T2 : Type} (conv : T2 → T)
    (h : gmap positive (t T)) (this : positive) (rhs : t T2)
  : option (gmap positive (t T) * positive) :=
  o ← h !! this;
  Some (<[this := assign_Vector4 conv o rhs]> h, this).

(** The assignment of a [Vector4<T>] to a [Vector4<T>], for which the
    compiler supplies the memberwise copy assignment operator; it writes the
    four members like the template with the identity conversion, and
    returns [*this]. *)
Definition op_assign_copy
    (h : gmap positive (t T)) (this : positive) (rhs : positive)
  : option (gmap positive (t T) * positive) :=
  r ← h !! rhs;
  op_assign_Vector4 (fun a : T => a) h this r.

(** The statement [c = (b = a);] for each shape of [a]: the inner
    assignment yields a reference, which is the right-hand side of the
    outer one. *)
Definition chain_Vector2 `{!CastZero T}
    (h : gmap positive (t T)) (c b : positive) (a : Vector2.t T)
  : option (gmap positive (t T) * positive) :=
  '(h1, r) ← op_assign_Vector2 h b a;
  op_assign_copy h1 c r.

Definition chain_Vector3 `{!CastZero T}
    (h : gmap positive (t T)) (c b : positive) (a : Vector3.t T)
  : option (gmap positive (t T) * positive) :=
  '(h1, r) ← op_assign_Vector3 h b a;
  op_assign_copy h1 c r.

Definition chain_Vector4 {T2 : Type} (conv : T2 → T)
    (h : gmap positive (t T)) (c b : positive) (a : t T2)
  : option (gmap positive (t T) * positive) :=
  '(h1, r) ← op_assign_Vector4 conv h b a;
  op_assign_copy h1 c r.

Definition chain_copy
    (h : gmap positive (t T)) (c b a : positive)
  : option (gmap positive (t T) * positive) :=
  '(h1, r) ← op_assign_copy h b a;
  op_assign_copy h1 c r.

End References.

(** *** Formatting *)

(** The primary template and its four explicit specialisations:
    [template <typename T> ... { return "%d"; }] and then
    [Vector4<int>] "%d", [Vector4<unsigned int>] "%u",
    [Vector4<float>] "%f", [Vector4<double>] "%lf". *)
Definition formatString (T : ctype) : string :=
  match T with
  | TInt => "%d"
  | TUInt => "%u"
  | TFloat => "%f"
  | TDouble => "%lf"
  | _ => "%d"
  end.

(** The format [toString] hands to [sprintf].  [String] is the library's
    text wrapper; its [+] is concatenation and [c_str()] gives back the
    characters, so the format is the concatenation of the nine pieces. *)
Definition toString_format (T : ctype) : string :=
  let fmt := formatString T in
  ("Vector4(" ++ fmt ++ "," ++ fmt ++ "," ++ fmt ++ "," ++ fmt ++ ")")%string.

(** The variadic arguments [x, y, z, w] of the call, as they are passed. *)
Definition toString_args (T : ctype) (this : t (val T)) : list vararg :=
  [promote T (x this); promote T (y this); promote T (z this); promote T (w this)].

(** [char buf[50]; String fmt = formatString();
     sprintf(buf, ("Vector4(" + fmt + "," + fmt + "," + fmt + "," + fmt + ")").c_str(), x, y, z, w);
     return String(buf);] *)
Definition toString (T : ctype) (this : t (val T)) : option string :=
  sprintf 50 (toString_format T) (toString_args T this).

End Vector4.


(** * Properties *)

(** ** Members and indexed access *)

Section IndexedAccess.
Context {T : Type}.
Implicit Types (v : Vector4.t T) (a : T) (i j : Z) (m : Vector4.member).

Lemma index_offset i m : Vector4.index i = Some m → Vector4.offset_of m = i.
Proof.
  unfold Vector4.index, Vector4.member_at; cbn. rewrite Z.add_0_l.
  repeat (case (Z.eqb_spec _ _); [intros -> | intros _]);
    intros [= <-]; reflexivity.
Qed.

Lemma index_in_range i : 0 ≤ i ≤ 3 → ∃ m, Vector4.index i = Some m.
Proof.
  intros Hi.
  assert (i = 0 ∨ i = 1 ∨ i = 2 ∨ i = 3) as [-> | [-> | [-> | ->]]] by lia;
    eexists; reflexivity.
Qed.

Lemma index_out_of_range i : ¬ 0 ≤ i ≤ 3 → Vector4.index i = None.
Proof.
  intros Hi. destruct (Vector4.index i) as [m|] eqn:E; [|reflexivity].
  apply index_offset in E. destruct m; cbn in E; lia.
Qed.

Lemma index_is_Some i : is_Some (Vector4.index i) ↔ 0 ≤ i ≤ 3.
Proof.
  split.
  - intros [m E]. apply index_offset in E. destruct m; cbn in E; lia.
  - intros Hi. destruct (index_in_range i Hi) as [m E]. rewrite E. eauto.
Qed.

Lemma load_store_same v m a : Vector4.load (Vector4.store v m a) m = a.
Proof. destruct m; reflexivity. Qed.

Lemma load_store_other v m m' a :
  m ≠ m' → Vector4.load (Vector4.store v m a) m' = Vector4.load v m'.
Proof. destruct m, m'; intros H; try reflexivity; contradiction. Qed.

(** C4. For each index 0, 1, 2, 3 the indexed read [v[i]] is the member [x],
    [y], [z], [w] respectively; after [v[i] = a] the member of that position
    holds [a]; and a write to a named member is seen by the indexed read of
    its position. *)
Theorem index_is_member_access v a :
  (Vector4.index_read v 0 = Some (Vector4.x v)
   ∧ Vector4.index_read v 1 = Some (Vector4.y v)
   ∧ Vector4.index_read v 2 = Some (Vector4.z v)
   ∧ Vector4.index_read v 3 = Some (Vector4.w v))
  ∧ (Vector4.x <$> Vector4.index_write v 0 a = Some a
     ∧ Vector4.y <$> Vector4.index_write v 1 a = Some a
     ∧ Vector4.z <$> Vector4.index_write v 2 a = Some a
     ∧ Vector4.w <$> Vector4.index_write v 3 a = Some a)
  ∧ (Vector4.index_read (Vector4.store v Vector4.Mx a) 0 = Some a
     ∧ Vector4.index_read (Vector4.store v Vector4.My a) 1 = Some a
     ∧ Vector4.index_read (Vector4.store v Vector4.Mz a) 2 = Some a
     ∧ Vector4.index_read (Vector4.store v Vector4.Mw a) 3 = Some a).
Proof. repeat split. Qed.

(** C9. [operator[]] yields a reference to a member exactly for the indices
    0, 1, 2 and 3, and then to the member at that position; for every other
    index neither the reference, nor a read, nor a write through it is
    defined. *)
Theorem index_defined_exactly_on_0_to_3 v a i :
  (is_Some (Vector4.index i) ↔ 0 ≤ i ≤ 3)
  ∧ (is_Some (Vector4.index_read v i) ↔ 0 ≤ i ≤ 3)
  ∧ (is_Some (Vector4.index_write v i a) ↔ 0 ≤ i ≤ 3)
  ∧ (∀ m, Vector4.index i = Some m → Vector4.offset_of m = i)
  ∧ (¬ 0 ≤ i ≤ 3 →
     Vector4.index i = None ∧ Vector4.index_read v i = None
     ∧ Vector4.index_write v i a = None).
Proof.
  unfold Vector4.index_read, Vector4.index_write.
  rewrite !fmap_is_Some.
  split; [apply index_is_Some|]. split; [apply index_is_Some|].
  split; [apply index_is_Some|]. split; [intros m; apply index_offset|].
  intros Hi. rewrite (index_out_of_range i Hi). repeat split.
Qed.

(** C10. For an index [i] among 0, 1, 2, 3, the write [v[i] = a] succeeds,
    the member at position [i] then holds [a], and every other position
    reads as before; member by member, only the written one differs. *)
Theorem index_write_changes_only_that_member v i a :
  0 ≤ i ≤ 3 →
  (∃ v', Vector4.index_write v i a = Some v'
         ∧ Vector4.index_read v' i = Some a
         ∧ ∀ j, j ≠ i → Vector4.index_read v' j = Vector4.index_read v j)
  ∧ Vector4.index_write v 0 a
    = Some (Vector4.mk a (Vector4.y v) (Vector4.z v) (Vector4.w v))
  ∧ Vector4.index_write v 1 a
    = Some (Vector4.mk (Vector4.x v) a (Vector4.z v) (Vector4.w v))
  ∧ Vector4.index_write v 2 a
    = Some (Vector4.mk (Vector4.x v) (Vector4.y v) a (Vector4.w v))
  ∧ Vector4.index_write v 3 a
    = Some (Vector4.mk (Vector4.x v) (Vector4.y v) (Vector4.z v) a).
Proof.
  intros Hi. split; [|repeat split].
  destruct (index_in_range i Hi) as [m Em].
  exists (Vector4.store v m a).
  unfold Vector4.index_write, Vector4.index_read. rewrite Em; cbn.
  split; [reflexivity|]. split; [by rewrite load_store_same|].
  intros j Hj. destruct (Vector4.index j) as [m'|] eqn:Ej; [|reflexivity].
  cbn. rewrite load_store_other; [reflexivity|].
  intros ->. apply index_offset in Em, Ej. congruence.
Qed.

End IndexedAccess.

(** The write [v[2] = 7] on a vector holding [(10,20,30,40)]. *)
Lemma index_write_changes_only_that_member_witness :
  (∃ v', Vector4.index_write (Vector4.mk 10 20 30 40) 2 7 = Some v'
         ∧ Vector4.index_read v' 2 = Some 7
         ∧ ∀ j, j ≠ 2 →
             Vector4.index_read v' j
             = Vector4.index_read (Vector4.mk 10 20 30 40) j)
  ∧ Vector4.index_write (Vector4.mk 10 20 30 40) 2 7
    = Some (Vector4.mk 10 20 7 40).
Proof.
  destruct (index_write_changes_only_that_member
              (Vector4.mk 10 20 30 40) 2 7) as (H & _ & _ & H2 & _).
  - lia.
  - split; [exact H | exact H2].
Defined.

(** ** Constructors and assignment from the smaller vectors *)

Section Construction.
Context {T : Type}.
Implicit Types (v this : Vector4.t T) (a p q r : T).

(** Assignment mirrors construction: the receiver's former contents do not
    matter. *)
Lemma assign_Vector2_eq `{!CastZero T} this (rhs : Vector2.t T) :
  Vector4.assign_Vector2 this rhs = Vector4.ctor_Vector2 rhs.
Proof. reflexivity. Qed.

Lemma assign_Vector3_eq `{!CastZero T} this (rhs : Vector3.t T) :
  Vector4.assign_Vector3 this rhs = Vector4.ctor_Vector3 rhs.
Proof. reflexivity. Qed.

Lemma assign_Vector4_eq {T2 : Type} (conv : T2 → T) this (rhs : Vector4.t T2) :
  Vector4.assign_Vector4 conv this rhs = Vector4.ctor_Vector4 conv rhs.
Proof. reflexivity. Qed.

Lemma ctor_Vector4_id v : Vector4.ctor_Vector4 (fun a : T => a) v = v.
Proof. destruct v; reflexivity. Qed.

(** C5. Constructing or assigning from a [Vector2<T>] holding [(p, q)]
    gives [(p, q, 0, 0)], and from a [Vector3<T>] holding [(p, q, r)] gives
    [(p, q, r, 0)], where [0] is the zero of [T]; an assignment gives this
    whatever the receiver held before. *)
Theorem widening_fills_with_zero `{!CastZero T} this p q r :
  Vector4.ctor_Vector2 (Vector2.mk p q) = Vector4.mk p q cast_zero cast_zero
  ∧ Vector4.assign_Vector2 this (Vector2.mk p q)
    = Vector4.mk p q cast_zero cast_zero
  ∧ Vector4.ctor_Vector3 (Vector3.mk p q r) = Vector4.mk p q r cast_zero
  ∧ Vector4.assign_Vector3 this (Vector3.mk p q r)
    = Vector4.mk p q r cast_zero.
Proof. repeat split. Qed.

End Construction.

(** C1. The four-argument constructor stores its first, second and fourth
    arguments in [x], [y] and [w], but initialises [z] from the second
    argument [ty] and never reads the third: [Vector4<int>(1,2,3,4)] holds
    [(1,2,2,4)], so reading [z] does not give back 3. *)
Theorem ctor_initialises_z_from_ty :
  Vector4.ctor 1 2 3 4 = Vector4.mk 1 2 2 4
  ∧ Vector4.z (Vector4.ctor 1 2 3 4) ≠ 3
  ∧ ∀ (T : Type) (tx ty tz tw : T),
      Vector4.x (Vector4.ctor tx ty tz tw) = tx
      ∧ Vector4.y (Vector4.ctor tx ty tz tw) = ty
      ∧ Vector4.z (Vector4.ctor tx ty tz tw) = ty
      ∧ Vector4.w (Vector4.ctor tx ty tz tw) = tw.
Proof. split; [reflexivity|]. split; [cbn; lia|]. repeat split. Qed.

(** ** Conversions between element types *)

Section FloatToDouble.

Lemma iter_xO_value (m k : positive) :
  Zpos (Pos.iter xO m k) = Zpos m * 2 ^ Zpos k.
Proof.
  induction k as [|k IH] using Pos.peano_ind.
  - cbn. lia.
  - rewrite Pos.iter_succ, Pos2Z.inj_xO, IH, Pos2Z.inj_succ, Z.pow_succ_r; lia.
Qed.

Lemma iter_xO_digits (m k : positive) :
  Zpos (digits2_pos (Pos.iter xO m k)) = Zpos (digits2_pos m) + Zpos k.
Proof.
  induction k as [|k IH] using Pos.peano_ind.
  - cbn. lia.
  - rewrite Pos.iter_succ. cbn [digits2_pos]. lia.
Qed.

(** What [float_to_double] does to a finite binary32 number: the mantissa
    is shifted left until it has 53 digits and the exponent drops by the
    same amount. *)
Lemma float_to_double_finite s m e :
  bounded 24 128 m e = true →
  ∃ k : positive,
    Zpos k = 53 - Zpos (digits2_pos m)
    ∧ float_to_double (S754_finite s m e)
      = S754_finite s (Pos.iter xO m k) (e - Zpos k).
Proof.
  unfold bounded, canonical_mantissa, fexp, emin.
  intros [Hc He]%andb_prop. apply Z.eqb_eq in Hc. apply Z.leb_le in He.
  set (d := Zpos (digits2_pos m)) in *.
  assert (0 < d) by (unfold d; lia).
  assert (53 - d = Zpos (Z.to_pos (53 - d))) as Hk by lia.
  exists (Z.to_pos (53 - d)). split; [lia|].
  set (k := Z.to_pos (53 - d)) in *.
  unfold float_to_double, binary_round, shl_align, fexp, emin. fold d.
  replace (Z.max (d + e - 53) (3 - 1024 - 53) - e) with (Zneg k) by lia.
  unfold binary_round_aux, shr_fexp, fexp, emin, Zdigits2.
  rewrite iter_xO_digits. fold d.
  replace (Z.max (d + Zpos k + Z.max (d + e - 53) (3 - 1024 - 53) - 53)
             (3 - 1024 - 53) - Z.max (d + e - 53) (3 - 1024 - 53))
    with 0 by lia.
  cbn [shr shr_record_of_loc shr_m loc_of_shr_record round_nearest_even].
  rewrite iter_xO_digits. fold d.
  replace (Z.max (d + Zpos k + Z.max (d + e - 53) (3 - 1024 - 53) - 53)
             (3 - 1024 - 53) - Z.max (d + e - 53) (3 - 1024 - 53))
    with 0 by lia.
  cbn [shr shr_record_of_loc shr_m].
  replace (Z.max (d + e - 53) (3 - 1024 - 53)) with (e - Zpos k) by lia.
  case (Z.leb_spec (e - Zpos k) (1024 - 53)); [reflexivity | lia].
Qed.

(** The promotion from [float] to [double] loses nothing: a binary32 datum
    is mapped to a binary64 datum that denotes the same number, and
    zeros, infinities and NaN are kept. *)
Lemma float_to_double_exact f :
  valid_binary 24 128 f = true →
  valid_binary 53 1024 (float_to_double f) = true
  ∧ match f with
    | S754_finite _ _ _ => same_number f (float_to_double f)
    | _ => float_to_double f = f
    end.
Proof.
  destruct f as [s|s| |s m e]; cbn [valid_binary]; try (split; reflexivity).
  intros Hb. destruct (float_to_double_finite s m e Hb) as (k & Hk & ->).
  revert Hb. unfold bounded, canonical_mantissa, fexp, emin.
  intros [Hc He]%andb_prop. apply Z.eqb_eq in Hc. apply Z.leb_le in He.
  split.
  - cbn [valid_binary]. unfold bounded, canonical_mantissa, fexp, emin.
    rewrite iter_xO_digits. apply andb_true_intro.
    split; [apply Z.eqb_eq | apply Z.leb_le]; lia.
  - cbn [same_number]. rewrite iter_xO_value.
    replace (Z.min e (e - Zpos k)) with (e - Zpos k) by lia.
    replace (e - (e - Zpos k)) with (Zpos k) by lia.
    rewrite Z.sub_diag, Z.pow_0_r. destruct s; cbn [cond_Zopp]; lia.
Qed.

End FloatToDouble.

(** C6. Converting a [Vector4<float>] holding [(1.5f, 2.5f, 3.5f, 4.5f)] to
    a [Vector4<double>], by construction or by assignment, gives the
    doubles [(1.5, 2.5, 3.5, 4.5)], member by member the same numbers as
    the source; and copying a [Vector4<int>] into a [Vector4<int>] gives an
    equal vector. *)
Theorem converting_copy_is_memberwise :
  let src := Vector4.mk (float_literal 3 (-1)) (float_literal 5 (-1))
                        (float_literal 7 (-1)) (float_literal 9 (-1)) in
  let dst := Vector4.mk (double_literal 3 (-1)) (double_literal 5 (-1))
                        (double_literal 7 (-1)) (double_literal 9 (-1)) in
  Vector4.ctor_Vector4 float_to_double src = dst
  ∧ (∀ this, Vector4.assign_Vector4 float_to_double this src = dst)
  ∧ (same_number (Vector4.x src) (Vector4.x dst)
     ∧ same_number (Vector4.y src) (Vector4.y dst)
     ∧ same_number (Vector4.z src) (Vector4.z dst)
     ∧ same_number (Vector4.w src) (Vector4.w dst))
  ∧ (same_number (Vector4.x dst) (S754_finite false 3 (-1))
     ∧ same_number (Vector4.y dst) (S754_finite false 5 (-1))
     ∧ same_number (Vector4.z dst) (S754_finite false 7 (-1))
     ∧ same_number (Vector4.w dst) (S754_finite false 9 (-1)))
  ∧ (∀ v : Vector4.t Z,
       Vector4.ctor_Vector4 (fun n : Z => n) v = v
       ∧ ∀ this, Vector4.assign_Vector4 (fun n : Z => n) this v = v).
Proof.
  cbv zeta. split; [vm_compute; reflexivity|].
  split; [intros this; rewrite assign_Vector4_eq; vm_compute; reflexivity|].
  split; [vm_compute; repeat split|].
  split; [vm_compute; repeat split|].
  intros v. split; [apply ctor_Vector4_id|].
  intros this. rewrite assign_Vector4_eq. apply ctor_Vector4_id.
Qed.

(** ** Assignment returns the receiver *)

Section Chaining.
Context {T : Type}.
Implicit Types (h : gmap positive (Vector4.t T)) (a b c : positive).

Lemma op_assign_Vector4_spec {T2 : Type} (conv : T2 → T) h b ob
    (rhs : Vector4.t T2) :
  h !! b = Some ob →
  Vector4.op_assign_Vector4 conv h b rhs
  = Some (<[b := Vector4.ctor_Vector4 conv rhs]> h, b).
Proof. intros Hb. unfold Vector4.op_assign_Vector4. by rewrite Hb. Qed.

Lemma op_assign_Vector2_spec `{!CastZero T} h b ob (rhs : Vector2.t T) :
  h !! b = Some ob →
  Vector4.op_assign_Vector2 h b rhs
  = Some (<[b := Vector4.ctor_Vector2 rhs]> h, b).
Proof. intros Hb. unfold Vector4.op_assign_Vector2. by rewrite Hb. Qed.

Lemma op_assign_Vector3_spec `{!CastZero T} h b ob (rhs : Vector3.t T) :
  h !! b = Some ob →
  Vector4.op_assign_Vector3 h b rhs
  = Some (<[b := Vector4.ctor_Vector3 rhs]> h, b).
Proof. intros Hb. unfold Vector4.op_assign_Vector3. by rewrite Hb. Qed.

Lemma op_assign_copy_spec h c a oc oa :
  h !! c = Some oc → h !! a = Some oa →
  Vector4.op_assign_copy h c a = Some (<[c := oa]> h, c).
Proof.
  intros Hc Ha. unfold Vector4.op_assign_copy. rewrite Ha. cbn.
  rewrite (op_assign_Vector4_spec _ h c oc oa Hc). by rewrite ctor_Vector4_id.
Qed.

(** After [b] received [vb], the assignment [c = b'] through the returned
    reference [b' = b] leaves [vb] in both. *)
Lemma copy_after_assign h b c oc (vb : Vector4.t T) :
  h !! c = Some oc →
  ∃ h', Vector4.op_assign_copy (<[b := vb]> h) c b = Some (h', c)
        ∧ h' !! b = Some vb ∧ h' !! c = Some vb
        ∧ ∀ l, l ≠ b → l ≠ c → h' !! l = h !! l.
Proof.
  intros Hc.
  assert (∃ oc', <[b := vb]> h !! c = Some oc') as [oc' Hc'].
  { destruct (decide (b = c)) as [->|Hne].
    - exists vb. apply lookup_insert_eq.
    - exists oc. by rewrite lookup_insert_ne. }
  exists (<[c := vb]> (<[b := vb]> h)).
  rewrite (op_assign_copy_spec _ c b oc' vb Hc' (lookup_insert_eq _ _ _)).
  split; [reflexivity|]. split; [|split].
  - destruct (decide (c = b)) as [->|Hne].
    + apply lookup_insert_eq.
    + rewrite lookup_insert_ne by done. apply lookup_insert_eq.
  - apply lookup_insert_eq.
  - intros l Hb Hl. by rewrite !lookup_insert_ne.
Qed.

(** C7. Called on a live object [b], each assignment operator returns the
    address of [b]; and for live objects [b] and [c], the statement
    [c = (b = a)] succeeds and leaves in both [b] and [c] the value the
    inner assignment takes from [a]: [a] itself when [a] is a
    [Vector4<T>], its memberwise conversion when [a] is a [Vector4<T2>],
    and its zero-filled widening when [a] is a [Vector2<T>] or a
    [Vector3<T>]; no other object changes. *)
Theorem chained_assignment `{!CastZero T} h b c ob oc :
  h !! b = Some ob → h !! c = Some oc →
  (∀ (a2 : Vector2.t T), snd <$> Vector4.op_assign_Vector2 h b a2 = Some b)
  ∧ (∀ (a3 : Vector3.t T), snd <$> Vector4.op_assign_Vector3 h b a3 = Some b)
  ∧ (∀ (T2 : Type) (conv : T2 → T) (a4 : Vector4.t T2),
       snd <$> Vector4.op_assign_Vector4 conv h b a4 = Some b)
  ∧ (∀ a oa, h !! a = Some oa →
       ∃ h', Vector4.chain_copy h c b a = Some (h', c)
             ∧ h' !! b = Some oa ∧ h' !! c = Some oa
             ∧ ∀ l, l ≠ b → l ≠ c → h' !! l = h !! l)
  ∧ (∀ (T2 : Type) (conv : T2 → T) (a4 : Vector4.t T2),
       ∃ h', Vector4.chain_Vector4 conv h c b a4 = Some (h', c)
             ∧ h' !! b = Some (Vector4.ctor_Vector4 conv a4)
             ∧ h' !! c = Some (Vector4.ctor_Vector4 conv a4)
             ∧ ∀ l, l ≠ b → l ≠ c → h' !! l = h !! l)
  ∧ (∀ (a2 : Vector2.t T),
       ∃ h', Vector4.chain_Vector2 h c b a2 = Some (h', c)
             ∧ h' !! b = Some (Vector4.ctor_Vector2 a2)
             ∧ h' !! c = Some (Vector4.ctor_Vector2 a2)
             ∧ ∀ l, l ≠ b → l ≠ c → h' !! l = h !! l)
  ∧ (∀ (a3 : Vector3.t T),
       ∃ h', Vector4.chain_Vector3 h c b a3 = Some (h', c)
             ∧ h' !! b = Some (Vector4.ctor_Vector3 a3)
             ∧ h' !! c = Some (Vector4.ctor_Vector3 a3)
             ∧ ∀ l, l ≠ b → l ≠ c → h' !! l = h !! l).
Proof.
  intros Hb Hc.
  split; [intros a2; by rewrite (op_assign_Vector2_spec h b ob a2 Hb)|].
  split; [intros a3; by rewrite (op_assign_Vector3_spec h b ob a3 Hb)|].
  split; [intros T2 conv a4; by rewrite (op_assign_Vector4_spec conv h b ob a4 Hb)|].
  split; [|split; [|split]].
  - intros a oa Ha. unfold Vector4.chain_copy.
    rewrite (op_assign_copy_spec h b a ob oa Hb Ha). cbn.
    apply (copy_after_assign h b c oc oa Hc).
  - intros T2 conv a4. unfold Vector4.chain_Vector4.
    rewrite (op_assign_Vector4_spec conv h b ob a4 Hb). cbn.
    apply (copy_after_assign h b c oc _ Hc).
  - intros a2. unfold Vector4.chain_Vector2.
    rewrite (op_assign_Vector2_spec h b ob a2 Hb). cbn.
    apply (copy_after_assign h b c oc _ Hc).
  - intros a3. unfold Vector4.chain_Vector3.
    rewrite (op_assign_Vector3_spec h b ob a3 Hb). cbn.
    apply (copy_after_assign h b c oc _ Hc).
Qed.

End Chaining.

(** [c = (b = a)] on three objects of a store of [Vector4<int>]. *)
Lemma chained_assignment_witness :
  let h : gmap positive (Vector4.t Z) :=
    {[ 1%positive := Vector4.mk 0 0 0 0;
       2%positive := Vector4.mk 9 9 9 9;
       3%positive := Vector4.mk 1 2 3 4 ]} in
  ∃ h', Vector4.chain_copy h 2 1 3 = Some (h', 2%positive)
        ∧ h' !! 1%positive = Some (Vector4.mk 1 2 3 4)
        ∧ h' !! 2%positive = Some (Vector4.mk 1 2 3 4).
Proof.
  intros h.
  destruct (chained_assignment h 1 2 (Vector4.mk 0 0 0 0) (Vector4.mk 9 9 9 9))
    as (_ & _ & _ & H & _).
  - reflexivity.
  - reflexivity.
  - destruct (H 3%positive (Vector4.mk 1 2 3 4)) as (h' & E & Hb & Hc & _).
    + reflexivity.
    + exists h'. split; [exact E|]. split; [exact Hb | exact Hc].
Defined.

(** ** Formatting *)

Section Rendering.

(** [%d] writes the base-10 numeral of its argument: reading the text back
    as a signed decimal gives the argument. *)
Lemma render_d_reads_back (n : Z) :
  Z.of_int <$> NilZero.int_of_string (render_d n) = Some n.
Proof.
  unfold render_d. rewrite NilZero.isi.
  - cbn. f_equal. apply DecimalZ.of_to.
  - destruct n; cbn; [discriminate| |discriminate].
    intros [= H]. by apply DecimalPos.Unsigned.to_uint_nonnil in H.
  - destruct n; cbn; [discriminate|discriminate|].
    intros [= H]. by apply DecimalPos.Unsigned.to_uint_nonnil in H.
Qed.

(** [%u] writes the base-10 numeral of a natural number, without a sign. *)
Lemma render_u_reads_back (n : Z) :
  0 ≤ n →
  (fun d => Z.of_N (N.of_uint d)) <$> NilZero.uint_of_string (render_u n)
  = Some n.
Proof.
  intros Hn. unfold render_u. rewrite NilZero.usu.
  - cbn. f_equal. rewrite DecimalN.Unsigned.of_to. lia.
  - destruct (Z.to_N n); cbn; [discriminate|].
    apply DecimalPos.Unsigned.to_uint_nonnil.
Qed.

(** The text [toString] asks [sprintf] for, per element type. *)
Lemma toString_text_int (v : Vector4.t (val TInt)) :
  sprintf_text (Vector4.toString_format TInt) (Vector4.toString_args TInt v)
  = Some (Vector4_text (render_d (Vector4.x v)) (render_d (Vector4.y v))
                       (render_d (Vector4.z v)) (render_d (Vector4.w v))).
Proof. reflexivity. Qed.

Lemma toString_text_unsigned (v : Vector4.t (val TUInt)) :
  sprintf_text (Vector4.toString_format TUInt) (Vector4.toString_args TUInt v)
  = Some (Vector4_text (render_u (Vector4.x v)) (render_u (Vector4.y v))
                       (render_u (Vector4.z v)) (render_u (Vector4.w v))).
Proof. reflexivity. Qed.

Lemma toString_text_float (v : Vector4.t (val TFloat)) :
  sprintf_text (Vector4.toString_format TFloat) (Vector4.toString_args TFloat v)
  = Some (Vector4_text (render_f (float_to_double (Vector4.x v)))
                       (render_f (float_to_double (Vector4.y v)))
                       (render_f (float_to_double (Vector4.z v)))
                       (render_f (float_to_double (Vector4.w v)))).
Proof. reflexivity. Qed.

Lemma toString_text_double (v : Vector4.t (val TDouble)) :
  sprintf_text (Vector4.toString_format TDouble) (Vector4.toString_args TDouble v)
  = Some (Vector4_text (render_f (Vector4.x v)) (render_f (Vector4.y v))
                       (render_f (Vector4.z v)) (render_f (Vector4.w v))).
Proof. reflexivity. Qed.

(** [toString] returns the text when text and NUL fit the 50 bytes of
    [buf], and has no defined result otherwise. *)
Lemma toString_fits (T : ctype) (v : Vector4.t (val T)) (s : string) :
  sprintf_text (Vector4.toString_format T) (Vector4.toString_args T v) = Some s →
  Vector4.toString T v
  = if decide (String.length s + 1 ≤ 50)%nat then Some s else None.
Proof. intros H. unfold Vector4.toString, sprintf. rewrite H. reflexivity. Qed.

End Rendering.

(** C2. [toString] itself renders a [Vector4<int>] holding [(1,2,3,4)] as
    [Vector4(1,2,3,4)], but the vector that the four-argument constructor
    builds from the arguments 1, 2, 3, 4 holds [(1,2,2,4)], so the text
    obtained for it is [Vector4(1,2,2,4)]. *)
Theorem toString_after_ctor_1_2_3_4 :
  Vector4.toString TInt (Vector4.ctor 1 2 3 4) = Some "Vector4(1,2,2,4)"%string
  ∧ Vector4.toString TInt (Vector4.ctor 1 2 3 4) ≠ Some "Vector4(1,2,3,4)"%string
  ∧ Vector4.toString TInt (Vector4.mk 1 2 3 4) = Some "Vector4(1,2,3,4)"%string.
Proof. split; [|split]; [reflexivity|discriminate|reflexivity]. Qed.

(** C3. The 50 bytes of [buf] do not hold every rendering: for the
    [Vector4<int>] built from four times [INT_MIN], a value [int] can hold,
    the text has 56 characters and needs 57 bytes with its NUL, so
    [sprintf] writes past the buffer and [toString] has no defined result.
    The same happens for four times [UINT_MAX] (53 bytes) and four times
    [FLT_MAX] (197 bytes). *)
Theorem toString_buffer_too_small :
  let v := Vector4.ctor INT_MIN INT_MIN INT_MIN INT_MIN in
  let text :=
    "Vector4(-2147483648,-2147483648,-2147483648,-2147483648)"%string in
  representable TInt INT_MIN = true
  ∧ sprintf_text (Vector4.toString_format TInt) (Vector4.toString_args TInt v)
    = Some text
  ∧ (String.length text + 1 = 57)%nat
  ∧ Vector4.toString TInt v = None
  ∧ (representable TUInt 4294967295 = true
     ∧ Vector4.toString TUInt
         (Vector4.ctor 4294967295 4294967295 4294967295 4294967295) = None)
  ∧ (representable TFloat FLT_MAX = true
     ∧ String.length (render_f (float_to_double FLT_MAX)) = 46%nat
     ∧ Vector4.toString TFloat (Vector4.ctor FLT_MAX FLT_MAX FLT_MAX FLT_MAX)
       = None).
Proof. cbv zeta. repeat split; vm_compute; reflexivity. Qed.

(** C8, as stated, fails: [unsigned long] is an unsigned integral type, and
    the format selected for [Vector4<unsigned long>] is the signed [%d] of
    the primary template, not [%u]. *)
Lemma unsigned_long_gets_signed_format :
  is_unsigned_integral TULong = true
  ∧ Vector4.formatString TULong = "%d"%string
  ∧ Vector4.formatString TULong ≠ "%u"%string.
Proof. split; [|split]; [reflexivity|reflexivity|discriminate]. Qed.

(** C8, amended. The format is selected by the element type: [int] gets
    [%d] and its members are rendered in signed decimal, [unsigned int] gets
    [%u] and unsigned decimal, [float] gets [%f] and [double] gets [%lf],
    both rendered in fixed notation with six decimals (a [Vector4<float>]
    holding [(1,2,3,4)] reads [Vector4(1.000000,2.000000,3.000000,4.000000)]);
    every other element type, the remaining signed and unsigned integral
    types included, gets the [%d] of the primary template. *)
Theorem formatString_selected_by_element_type :
  (Vector4.formatString TInt = "%d"%string
   ∧ Vector4.formatString TUInt = "%u"%string
   ∧ Vector4.formatString TFloat = "%f"%string
   ∧ Vector4.formatString TDouble = "%lf"%string
   ∧ (∀ T, T ≠ TInt → T ≠ TUInt → T ≠ TFloat → T ≠ TDouble →
           Vector4.formatString T = "%d"%string)
   ∧ (∀ T, is_signed_integral T = true → Vector4.formatString T = "%d"%string)
   ∧ (∀ T, is_unsigned_integral T = true → T ≠ TUInt →
           Vector4.formatString T = "%d"%string)
   ∧ (∀ T, is_floating T = true →
           Vector4.formatString T = "%f"%string
           ∨ Vector4.formatString T = "%lf"%string))
  ∧ (∀ v : Vector4.t (val TInt),
       sprintf_text (Vector4.toString_format TInt) (Vector4.toString_args TInt v)
       = Some (Vector4_text (render_d (Vector4.x v)) (render_d (Vector4.y v))
                            (render_d (Vector4.z v)) (render_d (Vector4.w v))))
  ∧ (∀ v : Vector4.t (val TUInt),
       sprintf_text (Vector4.toString_format TUInt) (Vector4.toString_args TUInt v)
       = Some (Vector4_text (render_u (Vector4.x v)) (render_u (Vector4.y v))
                            (render_u (Vector4.z v)) (render_u (Vector4.w v))))
  ∧ (∀ v : Vector4.t (val TFloat),
       sprintf_text (Vector4.toString_format TFloat) (Vector4.toString_args TFloat v)
       = Some (Vector4_text (render_f (float_to_double (Vector4.x v)))
                            (render_f (float_to_double (Vector4.y v)))
                            (render_f (float_to_double (Vector4.z v)))
                            (render_f (float_to_double (Vector4.w v)))))
  ∧ (∀ v : Vector4.t (val TDouble),
       sprintf_text (Vector4.toString_format TDouble) (Vector4.toString_args TDouble v)
       = Some (Vector4_text (render_f (Vector4.x v)) (render_f (Vector4.y v))
                            (render_f (Vector4.z v)) (render_f (Vector4.w v))))
  ∧ (∀ n : Z, Z.of_int <$> NilZero.int_of_string (render_d n) = Some n)
  ∧ (∀ n : Z, 0 ≤ n →
       (fun d => Z.of_N (N.of_uint d)) <$> NilZero.uint_of_string (render_u n)
       = Some n)
  ∧ Vector4.toString TFloat
      (Vector4.mk (float_literal 1 0) (float_literal 2 0)
                  (float_literal 3 0) (float_literal 4 0))
    = Some "Vector4(1.000000,2.000000,3.000000,4.000000)"%string
  ∧ Vector4.toString TDouble
      (Vector4.mk (double_literal 1 0) (double_literal 2 0)
                  (double_literal 3 0) (double_literal 4 0))
    = Some "Vector4(1.000000,2.000000,3.000000,4.000000)"%string.
Proof.
  split.
  { repeat split.
    - intros []; intros; try reflexivity; contradiction.
    - intros []; intros; try reflexivity; discriminate.
    - intros []; intros; try reflexivity; try discriminate; contradiction.
    - intros []; intros; try discriminate; [left|right]; reflexivity. }
  split; [exact toString_text_int|].
  split; [exact toString_text_unsigned|].
  split; [exact toString_text_float|].
  split; [exact toString_text_double|].
  split; [exact render_d_reads_back|].
  split; [exact render_u_reads_back|].
  split; vm_compute; reflexivity.
Qed.

(** ** How long a rendered number is *)

Section DecimalLength.

Lemma string_of_uint_length (d : uint) :
  String.length (NilEmpty.string_of_uint d) = nb_digits d.
Proof. induction d; cbn; congruence. Qed.

(** Reading digits after an accumulator [acc] gives at least, and less than
    one more than, [acc] shifted by the number of digits read. *)
Lemma of_uint_acc_bounds (d : uint) (acc : positive) :
  Zpos acc * 10 ^ Z.of_nat (nb_digits d) ≤ Zpos (Pos.of_uint_acc d acc)
  ∧ Zpos (Pos.of_uint_acc d acc) < (Zpos acc + 1) * 10 ^ Z.of_nat (nb_digits d).
Proof.
  revert acc. induction d as [|d IH|d IH|d IH|d IH|d IH|d IH|d IH|d IH|d IH|d IH];
    intros acc; cbn [Pos.of_uint_acc nb_digits];
    [cbn; lia | ..];
    rewrite Nat2Z.inj_succ, Z.pow_succ_r by lia;
    match goal with
    | |- context [Pos.of_uint_acc d ?a] => specialize (IH a)
    end;
    assert (0 < 10 ^ Z.of_nat (nb_digits d)) by (apply Z.pow_pos_nonneg; lia);
    nia.
Qed.

(** The numeral of a positive number has no leading zero, so its number of
    digits [L] locates the number: [10^(L-1) <= p < 10^L]. *)
Lemma to_uint_digits (p : positive) :
  let L := Z.of_nat (nb_digits (Pos.to_uint p)) in
  1 ≤ L ∧ 10 ^ (L - 1) ≤ Zpos p < 10 ^ L.
Proof.
  cbv zeta.
  pose proof (DecimalPos.Unsigned.of_to p) as Hof.
  pose proof (DecimalPos.Unsigned.to_of (Pos.to_uint p)) as Hto.
  rewrite Hof in Hto. cbn [N.to_uint] in Hto.
  pose proof (DecimalPos.Unsigned.to_uint_nonzero p) as Hnz.
  pose proof (DecimalPos.Unsigned.to_uint_nonnil p) as Hnn.
  destruct (Pos.to_uint p) as [|d|d|d|d|d|d|d|d|d|d] eqn:E;
    [congruence | | ..].
  { exfalso. rewrite unorm_D0 in Hto.
    assert (d = Nil ∨ d ≠ Nil) as [->|Hd]
      by (destruct d; [left; reflexivity | right; discriminate ..]);
      [by apply Hnz|].
    pose proof (nb_digits_unorm d Hd) as Hle.
    rewrite <- Hto in Hle. cbn in Hle. lia. }
  all: cbn [Pos.of_uint] in Hof; injection Hof as Hof;
    cbn [nb_digits]; rewrite Nat2Z.inj_succ;
    match type of Hof with
    | Pos.of_uint_acc ?d' ?a = _ =>
        pose proof (of_uint_acc_bounds d' a) as Hb; rewrite Hof in Hb;
        replace (Z.succ (Z.of_nat (nb_digits d')) - 1)
          with (Z.of_nat (nb_digits d')) by lia;
        rewrite Z.pow_succ_r by lia;
        assert (0 < 10 ^ Z.of_nat (nb_digits d'))
          by (apply Z.pow_pos_nonneg; lia)
    end;
    nia.
Qed.

Lemma render_u_pos_length (p : positive) :
  String.length (render_u (Zpos p)) = nb_digits (Pos.to_uint p).
Proof.
  unfold render_u. cbn [Z.to_N N.to_uint]. unfold NilZero.string_of_uint.
  pose proof (DecimalPos.Unsigned.to_uint_nonnil p) as Hnn.
  destruct (Pos.to_uint p); [congruence|..]; apply string_of_uint_length.
Qed.

(** [%u] of a number below [10^k] takes at most [k] characters. *)
Lemma render_u_length (n : Z) (k : nat) :
  (1 ≤ k)%nat → 0 ≤ n < 10 ^ Z.of_nat k →
  (String.length (render_u n) ≤ k)%nat.
Proof.
  intros Hk Hn.
  destruct n as [|p|p]; [cbn; lia | | lia].
  rewrite render_u_pos_length.
  pose proof (to_uint_digits p) as (HL & Hlo & Hhi). cbv zeta in *.
  assert (Z.of_nat (nb_digits (Pos.to_uint p)) - 1 < Z.of_nat k); [|lia].
  apply (Z.pow_lt_mono_r_iff 10); lia.
Qed.

(** [%u] of a number from [10^(k-1)] on takes at least [k] characters. *)
Lemma render_u_length_lower (n : Z) (k : nat) :
  10 ^ (Z.of_nat k - 1) ≤ n → (1 ≤ k)%nat →
  (k ≤ String.length (render_u n))%nat.
Proof.
  intros Hn Hk.
  assert (0 < 10 ^ (Z.of_nat k - 1)) by (apply Z.pow_pos_nonneg; lia).
  destruct n as [|p|p]; [lia | | lia].
  rewrite render_u_pos_length.
  pose proof (to_uint_digits p) as (HL & Hlo & Hhi). cbv zeta in *.
  assert (Z.of_nat k - 1 < Z.of_nat (nb_digits (Pos.to_uint p))); [|lia].
  apply (Z.pow_lt_mono_r_iff 10); lia.
Qed.

(** [%d] writes a non-negative number like [%u], and a negative one as a
    minus sign followed by its magnitude. *)
Lemma render_d_nonneg (n : Z) : 0 ≤ n → render_d n = render_u n.
Proof. destruct n; [reflexivity|reflexivity|lia]. Qed.

Lemma render_d_neg (n : Z) : n < 0 → render_d n = String "-" (render_u (- n)).
Proof. destruct n; [lia|lia|reflexivity]. Qed.

Lemma render_d_length (n : Z) (k : nat) :
  (1 ≤ k)%nat → - 10 ^ Z.of_nat k < n < 10 ^ Z.of_nat k →
  (String.length (render_d n) ≤ if decide (n < 0)%Z then S k else k)%nat.
Proof.
  intros Hk Hn. case_decide.
  - rewrite render_d_neg by done. cbn [String.length].
    apply le_n_S, render_u_length; lia.
  - rewrite render_d_nonneg by lia. apply render_u_length; lia.
Qed.

End DecimalLength.

(** ** When [toString] fits its buffer *)

Section BufferUse.

Lemma append_length (s1 s2 : string) :
  String.length (s1 ++ s2) = (String.length s1 + String.length s2)%nat.
Proof.
  induction s1 as [|c s1 IH]; [reflexivity|].
  change (String c s1 ++ s2)%string with (String c (s1 ++ s2)).
  cbn [String.length]. by rewrite IH.
Qed.

Lemma Vector4_text_length (a b c d : string) :
  String.length (Vector4_text a b c d)
  = (12 + (String.length a + String.length b
           + String.length c + String.length d))%nat.
Proof.
  unfold Vector4_text. rewrite !append_length. cbn [String.length]. lia.
Qed.

Lemma toString_threshold (T : ctype) (v : Vector4.t (val T)) (a b c d : string) :
  sprintf_text (Vector4.toString_format T) (Vector4.toString_args T v)
  = Some (Vector4_text a b c d) →
  Vector4.toString T v
  = if decide (String.length a + String.length b
               + String.length c + String.length d ≤ 37)%nat
    then Some (Vector4_text a b c d) else None.
Proof.
  intros H. rewrite (toString_fits T v _ H), Vector4_text_length.
  repeat case_decide; try reflexivity; lia.
Qed.

End BufferUse.


(** X2. A [Vector4<int>] whose members all lie between -99999999 and
    999999999 is rendered by [toString] without leaving the buffer. *)
Theorem toString_int_fits_nine_characters (v : Vector4.t (val TInt)) :
  -99999999 ≤ Vector4.x v ≤ 999999999 →
  -99999999 ≤ Vector4.y v ≤ 999999999 →
  -99999999 ≤ Vector4.z v ≤ 999999999 →
  -99999999 ≤ Vector4.w v ≤ 999999999 →
  Vector4.toString TInt v
  = Some (Vector4_text (render_d (Vector4.x v)) (render_d (Vector4.y v))
                       (render_d (Vector4.z v)) (render_d (Vector4.w v))).
Proof.
  intros Hx Hy Hz Hw.
  assert (∀ n : Z, -99999999 ≤ n ≤ 999999999 →
            (String.length (render_d n) ≤ 9)%nat) as Hlen.
  { intros n Hn. destruct (decide (n < 0)) as [Hneg|Hpos].
    - pose proof (render_d_length n 8 ltac:(lia) ltac:(cbn; lia)) as H.
      by rewrite decide_True in H.
    - pose proof (render_d_length n 9 ltac:(lia) ltac:(cbn; lia)) as H.
      by rewrite decide_False in H. }
  rewrite (toString_threshold TInt v _ _ _ _ (toString_text_int v)).
  pose proof (Hlen _ Hx). pose proof (Hlen _ Hy).
  pose proof (Hlen _ Hz). pose proof (Hlen _ Hw).
  rewrite decide_True by lia. reflexivity.
Qed.

Lemma toString_int_fits_nine_characters_witness :
  Vector4.toString TInt (Vector4.mk (-99999999) 999999999 0 (-1))
  = Some "Vector4(-99999999,999999999,0,-1)"%string.
Proof.
  apply (toString_int_fits_nine_characters
           (Vector4.mk (-99999999) 999999999 0 (-1))); cbn; lia.
Defined.

(** X3. A [Vector4<unsigned int>] whose members are all at most 999999999 is
    rendered by [toString] without leaving the buffer. *)
Theorem toString_unsigned_fits_nine_digits (v : Vector4.t (val TUInt)) :
  0 ≤ Vector4.x v ≤ 999999999 →
  0 ≤ Vector4.y v ≤ 999999999 →
  0 ≤ Vector4.z v ≤ 999999999 →
  0 ≤ Vector4.w v ≤ 999999999 →
  Vector4.toString TUInt v
  = Some (Vector4_text (render_u (Vector4.x v)) (render_u (Vector4.y v))
                       (render_u (Vector4.z v)) (render_u (Vector4.w v))).
Proof.
  intros Hx Hy Hz Hw.
  assert (∀ n : Z, 0 ≤ n ≤ 999999999 →
            (String.length (render_u n) ≤ 9)%nat) as Hlen.
  { intros n Hn. apply render_u_length; [lia | cbn; lia]. }
  rewrite (toString_threshold TUInt v _ _ _ _ (toString_text_unsigned v)).
  pose proof (Hlen _ Hx). pose proof (Hlen _ Hy).
  pose proof (Hlen _ Hz). pose proof (Hlen _ Hw).
  rewrite decide_True by lia. reflexivity.
Qed.

Lemma toString_unsigned_fits_nine_digits_witness :
  Vector4.toString TUInt (Vector4.mk 0 999999999 123 4567)
  = Some "Vector4(0,999999999,123,4567)"%string.
Proof.
  apply (toString_unsigned_fits_nine_digits
           (Vector4.mk 0 999999999 123 4567)); cbn; lia.
Defined.

(** X4. A [Vector4<int>] whose members all have a magnitude of at least
    [10^9] never fits: each member takes ten characters or more, the text
    at least 52, and [toString] has no defined result. *)
Theorem toString_int_overruns_on_ten_digit_members (v : Vector4.t (val TInt)) :
  1000000000 ≤ Z.abs (Vector4.x v) →
  1000000000 ≤ Z.abs (Vector4.y v) →
  1000000000 ≤ Z.abs (Vector4.z v) →
  1000000000 ≤ Z.abs (Vector4.w v) →
  Vector4.toString TInt v = None.
Proof.
  intros Hx Hy Hz Hw.
  assert (∀ n : Z, 1000000000 ≤ Z.abs n →
            (10 ≤ String.length (render_d n))%nat) as Hlen.
  { intros n Hn. destruct (decide (n < 0)) as [Hneg|Hpos].
    - rewrite render_d_neg by done. cbn [String.length].
      apply le_S, (render_u_length_lower (- n) 10); [cbn; lia | lia].
    - rewrite render_d_nonneg by lia.
      apply (render_u_length_lower n 10); [cbn; lia | lia]. }
  rewrite (toString_threshold TInt v _ _ _ _ (toString_text_int v)).
  pose proof (Hlen _ Hx). pose proof (Hlen _ Hy).
  pose proof (Hlen _ Hz). pose proof (Hlen _ Hw).
  rewrite decide_False by lia. reflexivity.
Qed.

Lemma toString_int_overruns_on_ten_digit_members_witness :
  Vector4.toString TInt
    (Vector4.mk 1000000000 (-1000000000) 2147483647 INT_MIN) = None.
Proof.
  apply (toString_int_overruns_on_ten_digit_members
           (Vector4.mk 1000000000 (-1000000000) 2147483647 INT_MIN));
    vm_compute; discriminate.
Defined.

(** X5. For the element types that travel as [int] through the variadic call
    ([signed char], [unsigned char], [short], [unsigned short]) the [%d] of
    the primary template is the right specification, and the rendering of
    members the type can hold always fits the buffer. *)
Theorem toString_small_integer_types_fit (T : ctype) (v : Vector4.t (val T)) :
  int_bits T ≤ 16 →
  representable T (Vector4.x v) = true →
  representable T (Vector4.y v) = true →
  representable T (Vector4.z v) = true →
  representable T (Vector4.w v) = true →
  ∃ s, sprintf_text (Vector4.toString_format T) (Vector4.toString_args T v)
       = Some s
       ∧ Vector4.toString T v = Some s
       ∧ (String.length s ≤ 36)%nat.
Proof.
  intros HT Hx Hy Hz Hw.
  assert (∀ n : Z, -32768 ≤ n ≤ 65535 →
            (String.length (render_d n) ≤ 6)%nat) as Hlen.
  { intros n Hn. destruct (decide (n < 0)) as [Hneg|Hpos].
    - pose proof (render_d_length n 5 ltac:(lia) ltac:(cbn; lia)) as H.
      by rewrite decide_True in H.
    - pose proof (render_d_length n 5 ltac:(lia) ltac:(cbn; lia)) as H.
      rewrite decide_False in H by done. lia. }
  destruct T; cbn in HT; try lia; clear HT;
    cbn [val] in *;
    unfold representable, in_range in Hx, Hy, Hz, Hw;
    cbn [is_unsigned_integral int_bits] in Hx, Hy, Hz, Hw;
    apply andb_prop in Hx as [Hx1 Hx2]; apply andb_prop in Hy as [Hy1 Hy2];
    apply andb_prop in Hz as [Hz1 Hz2]; apply andb_prop in Hw as [Hw1 Hw2];
    apply Z.leb_le in Hx1, Hy1, Hz1, Hw1; apply Z.ltb_lt in Hx2, Hy2, Hz2, Hw2;
    repeat match goal with
           | H : context [2 ^ ?e] |- _ =>
               let c := eval vm_compute in (2 ^ e) in
               change (2 ^ e) with c in H
           end;
    (exists (Vector4_text (render_d (Vector4.x v)) (render_d (Vector4.y v))
                          (render_d (Vector4.z v)) (render_d (Vector4.w v))));
    assert (String.length (render_d (Vector4.x v)) ≤ 6)%nat by (apply Hlen; lia);
    assert (String.length (render_d (Vector4.y v)) ≤ 6)%nat by (apply Hlen; lia);
    assert (String.length (render_d (Vector4.z v)) ≤ 6)%nat by (apply Hlen; lia);
    assert (String.length (render_d (Vector4.w v)) ≤ 6)%nat by (apply Hlen; lia);
    (split; [reflexivity|]);
    (split; [|rewrite Vector4_text_length; lia]);
    match goal with
    | |- Vector4.toString ?T' v = _ =>
        rewrite (toString_threshold T' v
                   (render_d (Vector4.x v)) (render_d (Vector4.y v))
                   (render_d (Vector4.z v)) (render_d (Vector4.w v)) eq_refl)
    end;
    rewrite decide_True by lia; reflexivity.
Qed.

Lemma toString_small_integer_types_fit_witness :
  ∃ s, sprintf_text (Vector4.toString_format TShort)
         (Vector4.toString_args TShort (Vector4.mk (-32768) 32767 0 1))
       = Some s
       ∧ Vector4.toString TShort (Vector4.mk (-32768) 32767 0 1) = Some s
       ∧ (String.length s ≤ 36)%nat.
Proof.
  apply (toString_small_integer_types_fit TShort
           (Vector4.mk (-32768) 32767 0 1)); [cbn; lia | reflexivity ..].
Defined.


(** X7. A [Vector4<float>] prints exactly like the [Vector4<double>] it
    converts to: [%f] and [%lf] render the same promoted values. *)
Theorem toString_float_as_double (v : Vector4.t (val TFloat)) :
  Vector4.toString TFloat v
  = Vector4.toString TDouble (Vector4.ctor_Vector4 float_to_double v).
Proof. reflexivity. Qed.

(** X8. Converting a [Vector4<float>] to a [Vector4<double>] loses nothing,
    whatever the members: each member of the result is a binary64 datum,
    denotes the same number as the source member when that is finite and
    non-zero, and is the same zero, infinity or NaN otherwise. *)
Theorem float_vector_to_double_is_exact (v this : Vector4.t spec_float) :
  representable TFloat (Vector4.x v) = true →
  representable TFloat (Vector4.y v) = true →
  representable TFloat (Vector4.z v) = true →
  representable TFloat (Vector4.w v) = true →
  let dst := Vector4.ctor_Vector4 float_to_double v in
  Vector4.assign_Vector4 float_to_double this v = dst
  ∧ ∀ m : Vector4.member,
      representable TDouble (Vector4.load dst m) = true
      ∧ match Vector4.load v m with
        | S754_finite _ _ _ =>
            same_number (Vector4.load v m) (Vector4.load dst m)
        | _ => Vector4.load dst m = Vector4.load v m
        end.
Proof.
  intros Hx Hy Hz Hw dst. split; [reflexivity|].
  intros m. destruct m; cbn [Vector4.load dst Vector4.ctor_Vector4 Vector4.x
    Vector4.y Vector4.z Vector4.w representable];
    by apply float_to_double_exact.
Qed.

Lemma float_vector_to_double_is_exact_witness :
  let v := Vector4.mk (float_literal 1 (-3)) FLT_MAX
                      (S754_zero true) (S754_infinity false) in
  let dst := Vector4.ctor_Vector4 float_to_double v in
  Vector4.assign_Vector4 float_to_double v v = dst
  ∧ ∀ m : Vector4.member,
      representable TDouble (Vector4.load dst m) = true
      ∧ match Vector4.load v m with
        | S754_finite _ _ _ =>
            same_number (Vector4.load v m) (Vector4.load dst m)
        | _ => Vector4.load dst m = Vector4.load v m
        end.
Proof.
  intros v.
  apply (float_vector_to_double_is_exact v v); reflexivity.
Defined.

(** ** More on indexed access, assignment and the default constructor *)

Section IndexedAccessComposition.
Context {T : Type}.
Implicit Types (v : Vector4.t T) (a b : T) (i j : Z).


(** X10. A vector is determined by what [operator[]] reads at the four
    indices. *)
Theorem index_reads_determine_vector v v' :
  (∀ i, 0 ≤ i ≤ 3 → Vector4.index_read v i = Vector4.index_read v' i) →
  v = v'.
Proof.
  intros H.
  pose proof (H 0 ltac:(lia)) as H0. pose proof (H 1 ltac:(lia)) as H1.
  pose proof (H 2 ltac:(lia)) as H2. pose proof (H 3 ltac:(lia)) as H3.
  destruct v, v'. vm_compute in H0, H1, H2, H3. congruence.
Qed.

End IndexedAccessComposition.


Lemma index_reads_determine_vector_witness :
  Vector4.mk 1 2 3 4 = Vector4.store (Vector4.mk 1 2 3 0) Vector4.Mw 4.
Proof.
  apply (index_reads_determine_vector (Vector4.mk 1 2 3 4)
           (Vector4.store (Vector4.mk 1 2 3 0) Vector4.Mw 4)).
  intros i Hi. reflexivity.
Defined.

Section ConstructionAndAssignment.
Context {T : Type}.
Implicit Types (v this storage : Vector4.t T).

(** X11. The four-argument constructor does not depend on its third argument;
    it builds the vector of its four arguments exactly when the second and
    the third coincide, and in any case the write [v[2] = tz] afterwards
    gives that vector. *)
Theorem ctor_is_right_iff_ty_is_tz (tx ty tz tw : T) :
  (∀ tz', Vector4.ctor tx ty tz' tw = Vector4.ctor tx ty tz tw)
  ∧ (Vector4.ctor tx ty tz tw = Vector4.mk tx ty tz tw ↔ ty = tz)
  ∧ Vector4.index_write (Vector4.ctor tx ty tz tw) 2 tz
    = Some (Vector4.mk tx ty tz tw).
Proof.
  split; [reflexivity|]. split; [|reflexivity].
  unfold Vector4.ctor. split.
  - intros [= H]. exact H.
  - intros ->. reflexivity.
Qed.

(** X12. Nothing of a default-constructed vector's storage survives an
    assignment or four indexed writes: every assignment operator leaves
    what the corresponding constructor builds, and writing the indices 0 to
    3 leaves the four values written. *)
Theorem default_storage_is_overwritten `{!CastZero T} {T2 : Type}
    (conv : T2 → T) storage (a b c d : T)
    (r2 : Vector2.t T) (r3 : Vector3.t T) (r4 : Vector4.t T2) :
  (((Vector4.index_write (Vector4.ctor_default storage) 0 a
      ≫= (fun v => Vector4.index_write v 1 b))
     ≫= (fun v => Vector4.index_write v 2 c))
    ≫= (fun v => Vector4.index_write v 3 d))
  = Some (Vector4.mk a b c d)
  ∧ Vector4.assign_Vector2 (Vector4.ctor_default storage) r2
    = Vector4.ctor_Vector2 r2
  ∧ Vector4.assign_Vector3 (Vector4.ctor_default storage) r3
    = Vector4.ctor_Vector3 r3
  ∧ Vector4.assign_Vector4 conv (Vector4.ctor_default storage) r4
    = Vector4.ctor_Vector4 conv r4.
Proof. repeat split. Qed.

(** X13. In a store of objects, an assignment operator called on a live
    object [b] succeeds, returns [b], keeps the set of live objects and
    changes no object but [b]; and the self-assignment [b = b] leaves the
    whole store as it was. *)
Theorem assignment_in_store `{!CastZero T}
    (h : gmap positive (Vector4.t T)) (b : positive) ob :
  h !! b = Some ob →
  Vector4.op_assign_copy h b b = Some (h, b)
  ∧ (∀ (T2 : Type) (conv : T2 → T) (a : Vector4.t T2),
       ∃ h', Vector4.op_assign_Vector4 conv h b a = Some (h', b)
             ∧ dom h' = dom h ∧ ∀ l, l ≠ b → h' !! l = h !! l)
  ∧ (∀ a : Vector2.t T,
       ∃ h', Vector4.op_assign_Vector2 h b a = Some (h', b)
             ∧ dom h' = dom h ∧ ∀ l, l ≠ b → h' !! l = h !! l)
  ∧ (∀ a : Vector3.t T,
       ∃ h', Vector4.op_assign_Vector3 h b a = Some (h', b)
             ∧ dom h' = dom h ∧ ∀ l, l ≠ b → h' !! l = h !! l).
Proof.
  intros Hb.
  assert (∀ o : Vector4.t T,
            dom (<[b := o]> h) = dom h
            ∧ ∀ l, l ≠ b → <[b := o]> h !! l = h !! l) as Hframe.
  { intros o. split.
    - apply dom_insert_lookup_L. eauto.
    - intros l Hl. by rewrite lookup_insert_ne. }
  split; [|split; [|split]].
  - rewrite (op_assign_copy_spec h b b ob ob Hb Hb). by rewrite insert_id.
  - intros T2 conv a. eexists.
    rewrite (op_assign_Vector4_spec conv h b ob a Hb). split; [reflexivity|].
    apply Hframe.
  - intros a. eexists.
    rewrite (op_assign_Vector2_spec h b ob a Hb). split; [reflexivity|].
    apply Hframe.
  - intros a. eexists.
    rewrite (op_assign_Vector3_spec h b ob a Hb). split; [reflexivity|].
    apply Hframe.
Qed.

End ConstructionAndAssignment.

Lemma assignment_in_store_witness :
  let h : gmap positive (Vector4.t Z) :=
    {[ 1%positive := Vector4.mk 1 2 3 4; 2%positive := Vector4.mk 5 6 7 8 ]} in
  Vector4.op_assign_copy h 1 1 = Some (h, 1%positive)
  ∧ ∃ h', Vector4.op_assign_Vector2 h 1 (Vector2.mk 9 9) = Some (h', 1%positive)
          ∧ dom h' = dom h ∧ ∀ l, l ≠ 1%positive → h' !! l = h !! l.
Proof.
  intros h.
  destruct (assignment_in_store h 1 (Vector4.mk 1 2 3 4)) as (H1 & _ & H2 & _).
  - reflexivity.
  - split; [exact H1 | exact (H2 (Vector2.mk 9 9))].
Defined.
